(** * CS35L41 system test harness: the bring-up sequencer of [main.c]

    A shallow embedding of [cs35l41/baremetal/main.c].  The file has two
    functions: the BSP notification callback [app_bsp_callback] and [main],
    whose endless loop polls the user push button and walks the amplifier
    through calibration, playback, mute, hibernate and wake, one step per
    button press.

    Everything the harness does to the outside world is a call into the
    board support package declared in [hw_0_bsp.h].  The embedding keeps
    those calls as syntax: a program is a tree of BSP calls ([prog]), the
    BSP is an arbitrary function from the calls made so far to the answer
    of the next one ([driver]), and [run] produces the result of a program
    together with the calls it issued, in order, each with its answer. *)

From Stdlib Require Import ZArith List Bool Lia.
Import ListNotations.
Local Open Scope Z_scope.

(** ** The part of [hw_0_bsp.h] the harness relies on *)

(** The header is not part of the sources at hand.  Its literal
    substitutions are taken as parameters: nothing below depends on the
    numbers they stand for. *)
Class hw_0_bsp_h : Type := {
  BSP_STATUS_OK : Z;
  BSP_PB_ID_USER : Z;
  BSP_PLAY_SILENCE : Z;
  BSP_PLAY_STEREO_1KHZ_20DBFS : Z;
  BSP_DUT_ID_LEFT : Z
}.

(** One possible header, used to run the model on concrete inputs. *)
Definition bench_header : hw_0_bsp_h := {|
  BSP_STATUS_OK := 0;
  BSP_PB_ID_USER := 0;
  BSP_PLAY_SILENCE := 0;
  BSP_PLAY_STEREO_1KHZ_20DBFS := 1;
  BSP_DUT_ID_LEFT := 0
|}.

(** Functions of [main.c] whose address is handed to the BSP. *)
Inductive fn_ptr : Type :=
| fn_app_bsp_callback.

Definition NULL : Z := 0.

(** The BSP entry points called from [main.c], with their arguments.
    [bsp_dut_get_id] and [bsp_dut_is_processing] take the address of a
    local and report through it. *)
Inductive bsp_call : Type :=
| bsp_initialize (cb : fn_ptr) (cb_arg : Z)
| bsp_dut_initialize
| bsp_dut_process
| bsp_was_pb_pressed (pb_id : Z)
| bsp_audio_stop
| bsp_audio_play_record (content : Z)
| bsp_dut_reset
| bsp_dut_boot (cal_boot : bool)
| bsp_dut_power_up
| bsp_dut_calibrate
| bsp_dut_power_down
| bsp_dut_get_id
| bsp_dut_set_dig_gain (gain_db : Z)
| bsp_dut_is_processing
| bsp_dut_mute (is_mute : bool)
| bsp_dut_hibernate
| bsp_dut_wake
| bsp_sleep.

(** What the caller gets back.  Return values that [main.c] discards are
    [unit].  [bsp_was_pb_pressed] is used as a condition.  For
    [bsp_dut_get_id] the answer is the content of the local [dut_id] once
    the call is over (the local has no initialiser, so its content is the
    callee's business either way).  For [bsp_dut_is_processing] the answer
    is [Some b] when the callee stores [b] through the pointer and [None]
    when it leaves the pointee alone. *)
Definition answer (c : bsp_call) : Type :=
  match c with
  | bsp_was_pb_pressed _ => bool
  | bsp_dut_get_id => Z
  | bsp_dut_is_processing => option bool
  | _ => unit
  end.

(** A call together with the answer it got. *)
Record event : Type := Ev { ev_call : bsp_call; ev_answer : answer ev_call }.

Definition calls_of (evs : list event) : list bsp_call := map ev_call evs.

(** ** Programs over the BSP *)

Inductive prog (A : Type) : Type :=
| Ret (a : A)
| Call (c : bsp_call) (k : answer c -> prog A)
| Exit (code : Z).

Arguments Ret {A} a.
Arguments Call {A} c k.
Arguments Exit {A} code.

Fixpoint bind {A B : Type} (p : prog A) (f : A -> prog B) : prog B :=
  match p with
  | Ret a => f a
  | Call c k => Call c (fun x => bind (k x) f)
  | Exit n => Exit n
  end.

Definition call (c : bsp_call) : prog (answer c) := Call c (fun x => Ret x).

Declare Scope prog_scope.
Delimit Scope prog_scope with prog.
Bind Scope prog_scope with prog.
Notation "x <- p ;; q" := (bind p (fun x => q))
  (at level 61, p at next level, right associativity) : prog_scope.
Notation "p ;; q" := (bind p (fun _ => q))
  (at level 61, right associativity) : prog_scope.
Local Open Scope prog_scope.

(** How a program ends: it hands back a value, or the process is gone. *)
Inductive outcome (A : Type) : Type :=
| Returned (a : A)
| Exited (code : Z).

Arguments Returned {A} a.
Arguments Exited {A} code.

(** The BSP and the hardware behind it.  The answer to a call may depend
    on every call made before it (oldest first); as the answers given so
    far are themselves determined by the calls made so far, any behaviour
    of the board during one run of the harness is some [driver]. *)
Definition driver : Type := list bsp_call -> forall c : bsp_call, answer c.

(** [run bsp p h] runs [p] after the calls [h]; it gives the outcome and
    the events [p] added, oldest first.  Every BSP call comes back: a run
    follows the harness for as long as the BSP does not end the process
    through the callback registered with [bsp_initialize]; what that
    callback does when it is called is [app_bsp_callback] below. *)
Fixpoint run {A : Type} (bsp : driver) (p : prog A) (h : list bsp_call)
  : outcome A * list event :=
  match p with
  | Ret a => (Returned a, [])
  | Call c k =>
      let a := bsp h c in
      let (r, evs) := run bsp (k a) (h ++ [c]) in
      (r, Ev c a :: evs)
  | Exit n => (Exited n, [])
  end.

(** A C [switch] whose cases all end in [break]. *)
Fixpoint switch {A : Type} (x : Z) (cases : list (Z * A)) (default : A) : A :=
  match cases with
  | [] => default
  | (v, body) :: rest => if x =? v then body else switch x rest default
  end.

(** Conversion to [uint8_t]. *)
Definition uint8 (v : Z) : Z := v mod 2 ^ 8.

(** ** LOCAL LITERAL SUBSTITUTIONS *)

Definition APP_STATE_CAL_PDN : Z := 0.
Definition APP_STATE_CAL_BOOTED : Z := 1.
Definition APP_STATE_CAL_PUP : Z := 2.
Definition APP_STATE_CALIBRATED : Z := 3.
Definition APP_STATE_PDN : Z := 4.
Definition APP_STATE_BOOTED : Z := 5.
Definition APP_STATE_PUP : Z := 6.
Definition APP_STATE_MUTE : Z := 7.
Definition APP_STATE_UNMUTE : Z := 8.
Definition APP_STATE_HIBERNATE : Z := 9.
Definition APP_STATE_WAKE : Z := 10.
Definition APP_STATE_CHECK_PROCESSING : Z := 11.

(** ** LOCAL VARIABLES *)

Record globals : Type := {
  app_audio_state : Z;    (* static uint8_t *)
  bsp_pb_pressed : bool   (* static bool *)
}.

Definition initial_globals : globals :=
  {| app_audio_state := APP_STATE_CAL_PDN; bsp_pb_pressed := false |}.

Definition set_app_audio_state (g : globals) (v : Z) : globals :=
  {| app_audio_state := uint8 v; bsp_pb_pressed := bsp_pb_pressed g |}.

Definition set_bsp_pb_pressed (g : globals) (b : bool) : globals :=
  {| app_audio_state := app_audio_state g; bsp_pb_pressed := b |}.

Section Harness.

Context {hdr : hw_0_bsp_h}.

(** ** LOCAL FUNCTIONS *)

(** [void app_bsp_callback(uint32_t status, void *arg)] *)
Definition app_bsp_callback (status : Z) (arg : Z) (g : globals) : prog globals :=
  if negb (status =? BSP_STATUS_OK) then Exit 1 else Ret g.

(** ** API FUNCTIONS *)

(** The [switch (app_audio_state)] statement of the loop body. *)
Definition dispatch (g : globals) : prog globals :=
  switch (app_audio_state g)
    [ (APP_STATE_CAL_PDN,
        if bsp_pb_pressed g then
          call bsp_audio_stop ;;
          call (bsp_audio_play_record BSP_PLAY_SILENCE) ;;
          call bsp_dut_reset ;;
          call (bsp_dut_boot true) ;;
          Ret (set_app_audio_state g APP_STATE_CAL_BOOTED)
        else Ret g);
      (APP_STATE_CAL_BOOTED,
        if bsp_pb_pressed g then
          call bsp_dut_power_up ;;
          Ret (set_app_audio_state g APP_STATE_CAL_PUP)
        else Ret g);
      (APP_STATE_CAL_PUP,
        if bsp_pb_pressed g then
          call bsp_dut_calibrate ;;
          Ret (set_app_audio_state g APP_STATE_CALIBRATED)
        else Ret g);
      (APP_STATE_CALIBRATED,
        if bsp_pb_pressed g then
          call bsp_dut_power_down ;;
          Ret (set_app_audio_state g APP_STATE_PDN)
        else Ret g);
      (APP_STATE_PDN,
        if bsp_pb_pressed g then
          call bsp_audio_stop ;;
          call (bsp_audio_play_record BSP_PLAY_STEREO_1KHZ_20DBFS) ;;
          call bsp_dut_reset ;;
          call (bsp_dut_boot false) ;;
          id <- call bsp_dut_get_id ;;
          let dut_id := uint8 id in
          (if dut_id =? BSP_DUT_ID_LEFT
           then call (bsp_dut_set_dig_gain (-6))
           else call (bsp_dut_set_dig_gain (-10))) ;;
          Ret (set_app_audio_state g APP_STATE_BOOTED)
        else Ret g);
      (APP_STATE_BOOTED,
        if bsp_pb_pressed g then
          call bsp_dut_power_up ;;
          Ret (set_app_audio_state g APP_STATE_CHECK_PROCESSING)
        else Ret g);
      (APP_STATE_CHECK_PROCESSING,
        if bsp_pb_pressed g then
          let is_processing := false in
          stored <- call bsp_dut_is_processing ;;
          let is_processing :=
            match stored with Some b => b | None => is_processing end in
          if is_processing
          then Ret (set_app_audio_state g APP_STATE_PUP)
          else Ret g
        else Ret g);
      (APP_STATE_PUP,
        if bsp_pb_pressed g then
          call (bsp_dut_mute true) ;;
          Ret (set_app_audio_state g APP_STATE_MUTE)
        else Ret g);
      (APP_STATE_MUTE,
        if bsp_pb_pressed g then
          call (bsp_dut_mute false) ;;
          Ret (set_app_audio_state g APP_STATE_UNMUTE)
        else Ret g);
      (APP_STATE_UNMUTE,
        if bsp_pb_pressed g then
          call bsp_dut_power_down ;;
          Ret (set_app_audio_state g APP_STATE_HIBERNATE)
        else Ret g);
      (APP_STATE_HIBERNATE,
        if bsp_pb_pressed g then
          call bsp_dut_hibernate ;;
          Ret (set_app_audio_state g APP_STATE_WAKE)
        else Ret g);
      (APP_STATE_WAKE,
        if bsp_pb_pressed g then
          call bsp_dut_wake ;;
          Ret (set_app_audio_state g APP_STATE_CAL_PDN)
        else Ret g) ]
    (Ret g).

(** The button poll at the top of the loop body. *)
Definition latch (pressed : bool) (g : globals) : globals :=
  if pressed then set_bsp_pb_pressed g true else g.

(** One pass through the body of [while (1)]. *)
Definition iteration (g : globals) : prog globals :=
  call bsp_dut_process ;;
  pressed <- call (bsp_was_pb_pressed BSP_PB_ID_USER) ;;
  let g := latch pressed g in
  g <- dispatch g ;;
  let g := set_bsp_pb_pressed g false in
  call bsp_sleep ;;
  Ret g.

(** The first [n] passes of [while (1)]. *)
Fixpoint main_loop (n : nat) (g : globals) : prog globals :=
  match n with
  | O => Ret g
  | S n' => g' <- main_loop n' g ;; iteration g'
  end.

(** [main] up to the end of its [n]-th pass through the loop.  The loop has
    no exit, so the [exit(1)] and the [return] that follow it in the source
    are never reached. *)
Definition main (n : nat) : prog globals :=
  call (bsp_initialize fn_app_bsp_callback NULL) ;;
  call bsp_dut_initialize ;;
  main_loop n initial_globals.

(** ** Reading a run *)

(** An accepted press: a button poll that the BSP answered with true. *)
Definition is_press (e : event) : bool :=
  match e with
  | Ev c a =>
      match c return answer c -> bool with
      | bsp_was_pb_pressed _ => fun pressed => pressed
      | _ => fun _ => false
      end a
  end.

Definition presses (evs : list event) : nat :=
  length (filter is_press evs).

Definition is_dut_process (c : bsp_call) : bool :=
  match c with
  | bsp_dut_process => true
  | _ => false
  end.

(** The device identity a stretch of a run reports: the content of
    [dut_id] after the first [bsp_dut_get_id] in it. *)
Definition reported_id (evs : list event) : Z :=
  match find (fun e => match ev_call e with
                       | bsp_dut_get_id => true
                       | _ => false
                       end) evs with
  | Some (Ev c a) =>
      match c return answer c -> Z with
      | bsp_dut_get_id => fun id => uint8 id
      | _ => fun _ => 0
      end a
  | None => 0
  end.

(** The calls of a pass that dispatches nothing. *)
Definition idle_pass : list bsp_call :=
  [ bsp_dut_process; bsp_was_pb_pressed BSP_PB_ID_USER; bsp_sleep ].

(** The twelve values [main.c] defines for [app_audio_state]. *)
Definition app_states : list Z :=
  [ APP_STATE_CAL_PDN; APP_STATE_CAL_BOOTED; APP_STATE_CAL_PUP;
    APP_STATE_CALIBRATED; APP_STATE_PDN; APP_STATE_BOOTED; APP_STATE_PUP;
    APP_STATE_MUTE; APP_STATE_UNMUTE; APP_STATE_HIBERNATE; APP_STATE_WAKE;
    APP_STATE_CHECK_PROCESSING ].

(** ** The state transition table of the specification

    Section 4 of the specification, row by row and in its order: current
    state, actions performed (they depend on the device identity in one
    row only), next state.  The row of CHECK_PROCESSING names the state
    reached when the sequencer advances. *)
Record row : Type := {
  row_state : Z;
  row_actions : Z -> list bsp_call;
  row_next : Z
}.

Definition spec_table : list row :=
  [ {| row_state := APP_STATE_CAL_PDN;
       row_actions := fun _ =>
         [ bsp_audio_stop; bsp_audio_play_record BSP_PLAY_SILENCE;
           bsp_dut_reset; bsp_dut_boot true ];
       row_next := APP_STATE_CAL_BOOTED |};
    {| row_state := APP_STATE_CAL_BOOTED;
       row_actions := fun _ => [ bsp_dut_power_up ];
       row_next := APP_STATE_CAL_PUP |};
    {| row_state := APP_STATE_CAL_PUP;
       row_actions := fun _ => [ bsp_dut_calibrate ];
       row_next := APP_STATE_CALIBRATED |};
    {| row_state := APP_STATE_CALIBRATED;
       row_actions := fun _ => [ bsp_dut_power_down ];
       row_next := APP_STATE_PDN |};
    {| row_state := APP_STATE_PDN;
       row_actions := fun identity =>
         [ bsp_audio_stop; bsp_audio_play_record BSP_PLAY_STEREO_1KHZ_20DBFS;
           bsp_dut_reset; bsp_dut_boot false; bsp_dut_get_id;
           bsp_dut_set_dig_gain
             (if identity =? BSP_DUT_ID_LEFT then -6 else -10) ];
       row_next := APP_STATE_BOOTED |};
    {| row_state := APP_STATE_BOOTED;
       row_actions := fun _ => [ bsp_dut_power_up ];
       row_next := APP_STATE_CHECK_PROCESSING |};
    {| row_state := APP_STATE_CHECK_PROCESSING;
       row_actions := fun _ => [ bsp_dut_is_processing ];
       row_next := APP_STATE_PUP |};
    {| row_state := APP_STATE_PUP;
       row_actions := fun _ => [ bsp_dut_mute true ];
       row_next := APP_STATE_MUTE |};
    {| row_state := APP_STATE_MUTE;
       row_actions := fun _ => [ bsp_dut_mute false ];
       row_next := APP_STATE_UNMUTE |};
    {| row_state := APP_STATE_UNMUTE;
       row_actions := fun _ => [ bsp_dut_power_down ];
       row_next := APP_STATE_HIBERNATE |};
    {| row_state := APP_STATE_HIBERNATE;
       row_actions := fun _ => [ bsp_dut_hibernate ];
       row_next := APP_STATE_WAKE |};
    {| row_state := APP_STATE_WAKE;
       row_actions := fun _ => [ bsp_dut_wake ];
       row_next := APP_STATE_CAL_PDN |} ].

Definition spec_row (s : Z) : option row :=
  find (fun r => row_state r =? s) spec_table.

Definition spec_next (s : Z) : Z :=
  match spec_row s with
  | Some r => row_next r
  | None => s
  end.

Definition spec_actions (s : Z) (identity : Z) : list bsp_call :=
  match spec_row s with
  | Some r => row_actions r identity
  | None => []
  end.

(** The states of the table other than CHECK_PROCESSING. *)
Definition one_press_states : list Z :=
  filter (fun s => negb (s =? APP_STATE_CHECK_PROCESSING))
         (map row_state spec_table).

(** ** The loop as a transition system

    What one pass of the loop can look like from outside, when it starts
    in state [s] with the edge flag down: the number of presses it saw,
    the calls it made, the state it ends in. *)

Definition pass_of (acts : list bsp_call) : list bsp_call :=
  bsp_dut_process :: bsp_was_pb_pressed BSP_PB_ID_USER :: acts ++ [bsp_sleep].

Inductive pass_from (s : Z) : nat -> list bsp_call -> Z -> Prop :=
| pass_idle :
    pass_from s 0 (pass_of []) s
| pass_hold :
    s = APP_STATE_CHECK_PROCESSING ->
    pass_from s 1 (pass_of [bsp_dut_is_processing]) s
| pass_advance (identity : Z) :
    pass_from s 1 (pass_of (spec_actions s identity)) (spec_next s).

(** [walk s n k l s']: [n] passes in a row, from [s] to [s'], that saw [k]
    presses and made the calls [l]. *)
Inductive walk (s : Z) : nat -> nat -> list bsp_call -> Z -> Prop :=
| walk_start :
    walk s 0 0 [] s
| walk_pass (n k : nat) (l : list bsp_call) (s1 : Z)
            (k1 : nat) (l1 : list bsp_call) (s2 : Z) :
    walk s n k l s1 ->
    pass_from s1 k1 l1 s2 ->
    walk s (S n) (k + k1) (l ++ l1) s2.

(** ** Reading the calls of a run *)

Definition is_poll (c : bsp_call) : bool :=
  match c with
  | bsp_was_pb_pressed _ => true
  | _ => false
  end.

Definition is_sleep (c : bsp_call) : bool :=
  match c with
  | bsp_sleep => true
  | _ => false
  end.

Definition is_init (c : bsp_call) : bool :=
  match c with
  | bsp_initialize _ _ | bsp_dut_initialize => true
  | _ => false
  end.

(** The calls the loop makes once the DUT has been seen processing. *)
Definition is_late (c : bsp_call) : bool :=
  match c with
  | bsp_dut_mute _ | bsp_dut_hibernate | bsp_dut_wake => true
  | _ => false
  end.

(** The states up to and including CHECK_PROCESSING. *)
Definition early_states : list Z :=
  [ APP_STATE_CAL_PDN; APP_STATE_CAL_BOOTED; APP_STATE_CAL_PUP;
    APP_STATE_CALIBRATED; APP_STATE_PDN; APP_STATE_BOOTED;
    APP_STATE_CHECK_PROCESSING ].

(** [checked ok past l]: every call of [l] is acceptable to [ok] given
    the calls before it, most recent first, [past] being those before
    [l]. *)
Fixpoint checked (ok : list bsp_call -> bsp_call -> bool)
                 (past l : list bsp_call) : bool :=
  match l with
  | [] => true
  | c :: l' => ok past c && checked ok (c :: past) l'
  end.

(** A boot comes directly after audio stop, the reference for its mode
    and a reset. *)
Definition boot_rule (past : list bsp_call) (c : bsp_call) : bool :=
  match c with
  | bsp_dut_boot cal_boot =>
      match past with
      | bsp_dut_reset :: bsp_audio_play_record content :: bsp_audio_stop :: _ =>
          content =? (if cal_boot then BSP_PLAY_SILENCE
                      else BSP_PLAY_STEREO_1KHZ_20DBFS)
      | _ => false
      end
  | _ => true
  end.

(** The gain is -6 or -10 and is set directly after a normal boot and
    the identity query. *)
Definition gain_rule (past : list bsp_call) (c : bsp_call) : bool :=
  match c with
  | bsp_dut_set_dig_gain gain_db =>
      match past with
      | bsp_dut_get_id :: bsp_dut_boot false :: _ =>
          (gain_db =? -6) || (gain_db =? -10)
      | _ => false
      end
  | _ => true
  end.

(** [monitor step m l] follows the calls [l] from [m]; [None] when a call
    is refused. *)
Fixpoint monitor {M : Type} (step : M -> bsp_call -> option M)
                 (m : M) (l : list bsp_call) : option M :=
  match l with
  | [] => Some m
  | c :: l' =>
      match step m c with
      | Some m' => monitor step m' l'
      | None => None
      end
  end.

(** Power: up and down take turns; reset, boot, hibernate and wake want
    the DUT powered down; calibration, mute and the processing query
    want it powered up. *)
Definition power_rule (up : bool) (c : bsp_call) : option bool :=
  match c with
  | bsp_dut_power_up => if up then None else Some true
  | bsp_dut_power_down => if up then Some false else None
  | bsp_dut_reset | bsp_dut_boot _ | bsp_dut_hibernate | bsp_dut_wake =>
      if up then None else Some false
  | bsp_dut_calibrate | bsp_dut_mute _ | bsp_dut_is_processing =>
      if up then Some true else None
  | _ => Some up
  end.

Definition powered (s : Z) : bool :=
  existsb (Z.eqb s)
    [ APP_STATE_CAL_PUP; APP_STATE_CALIBRATED; APP_STATE_CHECK_PROCESSING;
      APP_STATE_PUP; APP_STATE_MUTE; APP_STATE_UNMUTE ].

(** Boot mode: [None] on a DUT not booted since its last reset (or
    never), [Some cal_boot] after a boot.  A boot wants a fresh reset;
    calibration wants a calibration boot; identity, gain, processing
    query and mute want a normal boot. *)
Definition mode_rule (mode : option bool) (c : bsp_call) : option (option bool) :=
  match c with
  | bsp_dut_reset => Some None
  | bsp_dut_boot cal_boot =>
      match mode with
      | None => Some (Some cal_boot)
      | Some _ => None
      end
  | bsp_dut_calibrate =>
      match mode with
      | Some true => Some mode
      | _ => None
      end
  | bsp_dut_get_id | bsp_dut_set_dig_gain _ | bsp_dut_is_processing
  | bsp_dut_mute _ =>
      match mode with
      | Some false => Some mode
      | _ => None
      end
  | _ => Some mode
  end.

Definition booted_as (s : Z) : option bool :=
  if s =? APP_STATE_CAL_PDN then None
  else if existsb (Z.eqb s)
            [ APP_STATE_CAL_BOOTED; APP_STATE_CAL_PUP; APP_STATE_CALIBRATED;
              APP_STATE_PDN ]
       then Some true
       else Some false.

(** Sleep and mute: [(hibernating, muted)].  Hibernate and wake take
    turns, and so do mute and unmute; a hibernating DUT gets no call but
    the servicing of every pass and the wake; a muted DUT is neither
    powered down nor sent to sleep. *)
Definition rest_rule (m : bool * bool) (c : bsp_call) : option (bool * bool) :=
  let (hibernating, muted) := m in
  match c with
  | bsp_dut_process | bsp_was_pb_pressed _ | bsp_sleep => Some m
  | bsp_dut_wake => if hibernating then Some (false, muted) else None
  | bsp_dut_hibernate =>
      if hibernating || muted then None else Some (true, muted)
  | bsp_dut_mute is_mute =>
      if hibernating || Bool.eqb is_mute muted then None
      else Some (hibernating, is_mute)
  | bsp_dut_power_down =>
      if hibernating || muted then None else Some m
  | _ => if hibernating then None else Some m
  end.

Definition resting (s : Z) : bool * bool :=
  (s =? APP_STATE_WAKE, s =? APP_STATE_MUTE).

End Harness.

(** ** A bench to run the model on *)

(** A BSP that gives the same answers throughout. *)
Definition bench_driver (pressed : bool) (id : Z) (stored : option bool)
  : driver :=
  fun _ c =>
    match c return answer c with
    | bsp_was_pb_pressed _ => pressed
    | bsp_dut_get_id => id
    | bsp_dut_is_processing => stored
    | _ => tt
    end.

(** * Properties *)

Section Properties.

Context {hdr : hw_0_bsp_h}.

(** ** Running programs *)

Lemma run_bind {A B : Type} (bsp : driver) (p : prog A) (f : A -> prog B) :
  forall h,
    run bsp (x <- p ;; f x) h =
    match run bsp p h with
    | (Returned a, evs) =>
        let (r, evs') := run bsp (f a) (h ++ calls_of evs) in (r, evs ++ evs')
    | (Exited n, evs) => (Exited n, evs)
    end.
Proof.
  induction p as [a | c k IH | n]; intros h; cbn [bind run].
  - cbn [calls_of map]. rewrite app_nil_r.
    destruct (run bsp (f a) h). reflexivity.
  - rewrite IH.
    destruct (run bsp (k (bsp h c)) (h ++ [c])) as [[a | n] evs].
    + cbn [calls_of map ev_call]. rewrite <- app_assoc. cbn [app].
      destruct (run bsp (f a) _). reflexivity.
    + reflexivity.
  - reflexivity.
Qed.

Lemma calls_of_app (evs evs' : list event) :
  calls_of (evs ++ evs') = calls_of evs ++ calls_of evs'.
Proof. apply map_app. Qed.

Lemma presses_app (evs evs' : list event) :
  presses (evs ++ evs') = (presses evs + presses evs')%nat.
Proof. unfold presses. rewrite filter_app, length_app. reflexivity. Qed.

(** Runs a straight-line program on a known state. *)
Ltac straight := cbn; rewrite <- ?app_assoc; cbn [app].

(** ** The dispatch step *)

(** With the edge flag down every case of the switch falls through. *)
Lemma dispatch_idle (bsp : driver) (h : list bsp_call) (g : globals) :
  bsp_pb_pressed g = false ->
  run bsp (dispatch g) h = (Returned g, []).
Proof.
  intros Hp. unfold dispatch. rewrite Hp. cbn [switch].
  repeat match goal with
         | |- context [if ?x =? ?v then _ else _] => destruct (x =? v)
         end; reflexivity.
Qed.

(** Outside the twelve defined values only the default case is left. *)
Lemma dispatch_undefined (g : globals) :
  ~ In (app_audio_state g) app_states ->
  dispatch g = Ret g.
Proof.
  intros Hs. unfold dispatch. cbn [switch].
  repeat match goal with
         | |- context [if ?x =? ?v then _ else _] =>
             destruct (Z.eqb_spec x v) as [E | _];
             [ exfalso; apply Hs; rewrite E; cbn; tauto | ]
         end.
  reflexivity.
Qed.

(** C1: in every state of the table but CHECK_PROCESSING, a dispatch with
    the edge flag up makes exactly the transition of the table (the state
    becomes the next state of the row, which is a different state) and
    issues the actions of the row, in order; a dispatch with the edge flag
    down leaves the state as it is and calls nothing. *)
Theorem dispatch_follows_table (bsp : driver) (h : list bsp_call) (s : Z) :
  In s one_press_states ->
  (exists evs : list event,
      run bsp (dispatch {| app_audio_state := s; bsp_pb_pressed := true |}) h
      = (Returned {| app_audio_state := spec_next s; bsp_pb_pressed := true |},
         evs)
      /\ spec_next s <> s
      /\ calls_of evs = spec_actions s (reported_id evs))
  /\ run bsp (dispatch {| app_audio_state := s; bsp_pb_pressed := false |}) h
     = (Returned {| app_audio_state := s; bsp_pb_pressed := false |}, []).
Proof.
  intros Hs. split; [ | apply dispatch_idle; reflexivity ].
  cbn in Hs.
  repeat (destruct Hs as [<- | Hs]); try contradiction;
    straight;
    try (destruct (uint8 _ =? BSP_DUT_ID_LEFT) eqn:Hid; cbn);
    (eexists; split; [ reflexivity | split; [ discriminate | ] ]);
    cbn; rewrite ?Hid; reflexivity.
Qed.

(** C4: the POWERED_DOWN to BOOTED transition stops audio, starts the
    stereo 1 kHz reference, resets the DUT, boots it in normal mode, asks
    for the device identity and sets the digital gain, in this order; the
    gain is -6 when the identity is the left one and -10 for any other
    identity; the state becomes BOOTED. *)
Theorem powered_down_to_booted (bsp : driver) (h : list bsp_call) :
  let identity :=
    uint8 (bsp (h ++ [ bsp_audio_stop;
                       bsp_audio_play_record BSP_PLAY_STEREO_1KHZ_20DBFS;
                       bsp_dut_reset; bsp_dut_boot false ])
               bsp_dut_get_id) in
  exists evs : list event,
    run bsp (dispatch {| app_audio_state := APP_STATE_PDN;
                         bsp_pb_pressed := true |}) h
    = (Returned {| app_audio_state := APP_STATE_BOOTED;
                   bsp_pb_pressed := true |}, evs)
    /\ reported_id evs = identity
    /\ calls_of evs =
       [ bsp_audio_stop;
         bsp_audio_play_record BSP_PLAY_STEREO_1KHZ_20DBFS;
         bsp_dut_reset;
         bsp_dut_boot false;
         bsp_dut_get_id;
         bsp_dut_set_dig_gain (if identity =? BSP_DUT_ID_LEFT then -6 else -10) ].
Proof.
  straight.
  destruct (uint8 _ =? BSP_DUT_ID_LEFT) eqn:Hid; cbn;
    (eexists; split; [ reflexivity | split; reflexivity ]).
Qed.

(** The CHECK_PROCESSING case with the edge flag up: one query, and the
    state advances when the local [is_processing] ends up true. *)
Lemma dispatch_check_processing (bsp : driver) (h : list bsp_call) :
  let g := {| app_audio_state := APP_STATE_CHECK_PROCESSING;
              bsp_pb_pressed := true |} in
  let stored := bsp h bsp_dut_is_processing in
  run bsp (dispatch g) h
  = (Returned match stored with
              | Some true => {| app_audio_state := APP_STATE_PUP;
                                bsp_pb_pressed := true |}
              | Some false | None => g
              end,
     [ Ev bsp_dut_is_processing stored ]).
Proof.
  straight. destruct (bsp h bsp_dut_is_processing) as [[ | ] | ]; reflexivity.
Qed.

(** C10: in CHECK_PROCESSING with the edge flag up the dispatch makes one
    call, the processing-status query, whatever it answers; when the query
    stored false, or stored nothing (the local starts out false), the
    globals are as they were; when it stored true the state is POWERED_UP
    and the flag is untouched. *)
Theorem check_processing_only_queries (bsp : driver) (h : list bsp_call) :
  let g := {| app_audio_state := APP_STATE_CHECK_PROCESSING;
              bsp_pb_pressed := true |} in
  let stored := bsp h bsp_dut_is_processing in
  exists g' : globals,
    run bsp (dispatch g) h = (Returned g', [ Ev bsp_dut_is_processing stored ])
    /\ (stored = Some false -> g' = g)
    /\ (stored = None -> g' = g)
    /\ (stored = Some true ->
        g' = {| app_audio_state := APP_STATE_PUP; bsp_pb_pressed := true |}).
Proof.
  intros g stored. eexists. split; [ apply dispatch_check_processing | ].
  fold stored. repeat split; intros ->; reflexivity.
Qed.

(** C7: called with a status other than BSP_STATUS_OK the callback ends
    the process with exit status 1, and nothing that would have followed
    the call runs; called with BSP_STATUS_OK it returns, having called
    nothing and changed nothing. *)
Theorem app_bsp_callback_fatal
  (bsp : driver) (h : list bsp_call) (status arg : Z) (g : globals) :
  (status <> BSP_STATUS_OK ->
   run bsp (app_bsp_callback status arg g) h = (Exited 1, [])
   /\ forall (B : Type) (rest : globals -> prog B),
        run bsp (g' <- app_bsp_callback status arg g ;; rest g') h
        = (Exited 1, []))
  /\ (status = BSP_STATUS_OK ->
      run bsp (app_bsp_callback status arg g) h = (Returned g, [])).
Proof.
  unfold app_bsp_callback. split; intros Hst.
  - apply Z.eqb_neq in Hst. rewrite Hst. split; reflexivity.
  - apply Z.eqb_eq in Hst. rewrite Hst. reflexivity.
Qed.

(** The next state of every row is one of the twelve defined values. *)
Lemma spec_next_defined (s : Z) :
  In s app_states -> In (spec_next s) app_states.
Proof.
  intros Hs. cbn in Hs.
  repeat (destruct Hs as [<- | Hs]); try contradiction; cbn; tauto.
Qed.

(** What one dispatch can do, whatever the state and the flag: it returns,
    leaves the flag alone, stays or takes the transition of the table, and
    neither polls the button nor services the DUT. *)
Lemma dispatch_summary (bsp : driver) (h : list bsp_call) (g : globals) :
  exists (g' : globals) (evs : list event),
    run bsp (dispatch g) h = (Returned g', evs)
    /\ bsp_pb_pressed g' = bsp_pb_pressed g
    /\ (g' = g
        \/ In (app_audio_state g) app_states
           /\ app_audio_state g' = spec_next (app_audio_state g))
    /\ presses evs = 0%nat
    /\ filter is_dut_process (calls_of evs) = [].
Proof.
  destruct g as [s [ | ]].
  2: { exists {| app_audio_state := s; bsp_pb_pressed := false |}, [].
       rewrite dispatch_idle by reflexivity. cbn. tauto. }
  destruct (in_dec Z.eq_dec s app_states) as [Hs | Hs].
  - assert (Hs' := Hs). cbn in Hs.
    repeat (destruct Hs as [<- | Hs]); try contradiction;
      straight;
      try (destruct (uint8 _ =? BSP_DUT_ID_LEFT); cbn);
      try (destruct (bsp h bsp_dut_is_processing) as [[ | ] | ]; cbn);
      (do 2 eexists; split; [ reflexivity | ]);
      cbn; tauto.
  - rewrite dispatch_undefined by exact Hs.
    exists {| app_audio_state := s; bsp_pb_pressed := true |}, [].
    cbn. tauto.
Qed.

(** With the flag up and the processing query answering true, a dispatch
    in a defined state takes the transition of the table. *)
Lemma dispatch_advances (bsp : driver) (h : list bsp_call) (s : Z) :
  In s app_states ->
  bsp h bsp_dut_is_processing = Some true ->
  exists evs : list event,
    run bsp (dispatch {| app_audio_state := s; bsp_pb_pressed := true |}) h
    = (Returned {| app_audio_state := spec_next s; bsp_pb_pressed := true |},
       evs)
    /\ presses evs = 0%nat.
Proof.
  intros Hs Hq. cbn in Hs.
  repeat (destruct Hs as [<- | Hs]); try contradiction;
    straight; rewrite ?Hq;
    try (destruct (uint8 _ =? BSP_DUT_ID_LEFT); cbn);
    (eexists; split; reflexivity).
Qed.

(** ** One pass of the loop *)

(** A pass is: service the DUT, poll the button, dispatch on the latched
    flag, clear the flag, sleep. *)
Lemma iteration_run
  (bsp : driver) (h : list bsp_call) (g g2 : globals) (devs : list event) :
  let poll := bsp_was_pb_pressed BSP_PB_ID_USER in
  let pressed := bsp (h ++ [bsp_dut_process]) poll in
  run bsp (dispatch (latch pressed g)) (h ++ [bsp_dut_process; poll])
  = (Returned g2, devs) ->
  run bsp (iteration g) h
  = (Returned (set_bsp_pb_pressed g2 false),
     Ev bsp_dut_process (bsp h bsp_dut_process)
     :: Ev poll pressed
     :: devs
     ++ [ Ev bsp_sleep
             (bsp (h ++ bsp_dut_process :: poll :: calls_of devs) bsp_sleep) ]).
Proof.
  intros poll pressed Hd. unfold iteration.
  cbn [bind call run]. rewrite <- app_assoc. cbn [app].
  rewrite run_bind. fold poll. fold pressed. rewrite Hd.
  cbn [bind call run]. rewrite <- !app_assoc. cbn [app]. reflexivity.
Qed.

(** Every pass returns, with the flag down; the state stays or takes the
    transition of the table. *)
Lemma iteration_summary (bsp : driver) (h : list bsp_call) (g : globals) :
  exists (g' : globals) (evs : list event),
    run bsp (iteration g) h = (Returned g', evs)
    /\ bsp_pb_pressed g' = false
    /\ (app_audio_state g' = app_audio_state g
        \/ In (app_audio_state g) app_states
           /\ app_audio_state g' = spec_next (app_audio_state g)).
Proof.
  destruct (dispatch_summary bsp
              (h ++ [bsp_dut_process; bsp_was_pb_pressed BSP_PB_ID_USER])
              (latch (bsp (h ++ [bsp_dut_process])
                          (bsp_was_pb_pressed BSP_PB_ID_USER)) g))
    as (g2 & devs & Hrun & _ & Hstep & _).
  do 2 eexists. split; [ apply iteration_run; exact Hrun | ].
  split; [ reflexivity | ].
  cbn [set_bsp_pb_pressed app_audio_state].
  assert (Hl : forall b, app_audio_state (latch b g) = app_audio_state g)
    by (intros [ | ]; reflexivity).
  rewrite Hl in Hstep.
  destruct Hstep as [-> | [Hin Hnext]]; [ left; apply Hl | right; tauto ].
Qed.

(** C5: after a pass of the loop the edge flag is down, whatever the
    globals were when the pass began and whatever the BSP answered; in the
    pass that follows, either the BSP reports a new press or the pass
    only services the DUT, polls and sleeps, and leaves the globals alone:
    a press is seen by one dispatch at most. *)
Theorem edge_flag_cleared_every_pass
  (bsp : driver) (h : list bsp_call) (g : globals) :
  exists (g1 : globals) (evs1 : list event) (g2 : globals) (evs2 : list event),
    run bsp (iteration g) h = (Returned g1, evs1)
    /\ bsp_pb_pressed g1 = false
    /\ run bsp (iteration g1) (h ++ calls_of evs1) = (Returned g2, evs2)
    /\ bsp_pb_pressed g2 = false
    /\ (presses evs2 = 1%nat
        \/ g2 = g1
           /\ calls_of evs2 =
              [ bsp_dut_process; bsp_was_pb_pressed BSP_PB_ID_USER; bsp_sleep ]).
Proof.
  destruct (iteration_summary bsp h g) as (g1 & evs1 & Hrun1 & Hflag1 & _).
  exists g1, evs1.
  set (h1 := h ++ calls_of evs1).
  set (poll := bsp_was_pb_pressed BSP_PB_ID_USER).
  destruct (bsp (h1 ++ [bsp_dut_process]) poll) eqn:Hpoll.
  - destruct (dispatch_summary bsp (h1 ++ [bsp_dut_process; poll])
                (latch true g1)) as (g2 & devs & Hrun & _ & _ & Hpr & _).
    do 2 eexists.
    split; [ exact Hrun1 | ]. split; [ exact Hflag1 | ].
    split; [ apply iteration_run; fold poll; rewrite Hpoll; exact Hrun | ].
    split; [ reflexivity | ].
    left. fold poll. rewrite Hpoll.
    change (presses (?a :: ?b :: ?l)) with (presses ([a; b] ++ l)).
    rewrite !presses_app, Hpr. reflexivity.
  - do 2 eexists.
    split; [ exact Hrun1 | ]. split; [ exact Hflag1 | ].
    split; [ apply iteration_run; fold poll; rewrite Hpoll;
             apply dispatch_idle; exact Hflag1 | ].
    split; [ reflexivity | ].
    right. destruct g1 as [s1 p1]. cbn in Hflag1. subst p1.
      split; reflexivity.
Qed.

(** C8: every pass of the loop begins with the DUT servicing call, then
    polls the button, then dispatches, then sleeps, whatever the globals
    and whatever the BSP answers; the servicing call is made exactly once
    per pass. *)
Theorem dut_process_once_every_pass
  (bsp : driver) (h : list bsp_call) (g : globals) :
  let poll := bsp_was_pb_pressed BSP_PB_ID_USER in
  exists (g' : globals) (evs : list event) (g2 : globals) (devs : list event),
    run bsp (iteration g) h = (Returned g', evs)
    /\ run bsp (dispatch (latch (bsp (h ++ [bsp_dut_process]) poll) g))
           (h ++ [bsp_dut_process; poll])
       = (Returned g2, devs)
    /\ calls_of evs = bsp_dut_process :: poll :: calls_of devs ++ [bsp_sleep]
    /\ length (filter is_dut_process (calls_of evs)) = 1%nat.
Proof.
  intros poll.
  destruct (dispatch_summary bsp (h ++ [bsp_dut_process; poll])
              (latch (bsp (h ++ [bsp_dut_process]) poll) g))
    as (g2 & devs & Hrun & _ & _ & _ & Hnone).
  exists (set_bsp_pb_pressed g2 false). eexists. exists g2, devs.
  split; [ apply iteration_run; exact Hrun | ].
  split; [ exact Hrun | ].
  cbn [calls_of map ev_call]. rewrite map_app. fold (calls_of devs).
  split; [ reflexivity | ].
  cbn [filter is_dut_process]. rewrite filter_app, Hnone. reflexivity.
Qed.

(** C3: in CHECK_PROCESSING with the edge flag up, the dispatch leaves the
    state at CHECK_PROCESSING when the query stores false and moves it to
    POWERED_UP when the query stores true; a pass of the loop in which the
    press is reported ends in the same states with the edge flag down, so
    the press is used up either way. *)
Theorem check_processing_gate (bsp : driver) (h : list bsp_call) (p : bool) :
  let poll := bsp_was_pb_pressed BSP_PB_ID_USER in
  let check (flag : bool) :=
    {| app_audio_state := APP_STATE_CHECK_PROCESSING; bsp_pb_pressed := flag |} in
  let powered_up (flag : bool) :=
    {| app_audio_state := APP_STATE_PUP; bsp_pb_pressed := flag |} in
  (bsp h bsp_dut_is_processing = Some false ->
   fst (run bsp (dispatch (check true)) h) = Returned (check true))
  /\ (bsp h bsp_dut_is_processing = Some true ->
      fst (run bsp (dispatch (check true)) h) = Returned (powered_up true))
  /\ (bsp (h ++ [bsp_dut_process]) poll = true ->
      bsp (h ++ [bsp_dut_process; poll]) bsp_dut_is_processing = Some false ->
      fst (run bsp (iteration (check p)) h) = Returned (check false))
  /\ (bsp (h ++ [bsp_dut_process]) poll = true ->
      bsp (h ++ [bsp_dut_process; poll]) bsp_dut_is_processing = Some true ->
      fst (run bsp (iteration (check p)) h) = Returned (powered_up false)).
Proof.
  intros poll check powered_up.
  pose proof (dispatch_check_processing bsp h) as Hd.
  pose proof (dispatch_check_processing bsp (h ++ [bsp_dut_process; poll]))
    as Hi.
  cbv zeta in Hd, Hi. fold (check true) in Hd, Hi.
  repeat split.
  - intros Hq. rewrite Hd, Hq. reflexivity.
  - intros Hq. rewrite Hd, Hq. reflexivity.
  - intros Hp Hq. rewrite Hq in Hi.
    pose proof (iteration_run bsp h (check p)) as Hrun.
    cbv zeta in Hrun. fold poll in Hrun. rewrite Hp in Hrun.
    rewrite (Hrun _ _ Hi). reflexivity.
  - intros Hp Hq. rewrite Hq in Hi.
    pose proof (iteration_run bsp h (check p)) as Hrun.
    cbv zeta in Hrun. fold poll in Hrun. rewrite Hp in Hrun.
    rewrite (Hrun _ _ Hi). reflexivity.
Qed.

(** ** The loop *)

Lemma main_loop_step
  (bsp : driver) (h : list bsp_call) (n : nat)
  (g g1 g2 : globals) (evs1 evs2 : list event) :
  run bsp (main_loop n g) h = (Returned g1, evs1) ->
  run bsp (iteration g1) (h ++ calls_of evs1) = (Returned g2, evs2) ->
  run bsp (main_loop (S n) g) h = (Returned g2, evs1 ++ evs2).
Proof.
  intros H1 H2. cbn [main_loop]. rewrite run_bind, H1, H2. reflexivity.
Qed.

Lemma main_run (bsp : driver) (n : nat) (g : globals) (evs : list event) :
  let init := bsp_initialize fn_app_bsp_callback NULL in
  run bsp (main_loop n initial_globals) [init; bsp_dut_initialize]
  = (Returned g, evs) ->
  run bsp (main n) []
  = (Returned g,
     Ev init (bsp [] init)
     :: Ev bsp_dut_initialize (bsp [init] bsp_dut_initialize)
     :: evs).
Proof.
  intros init Hrun. unfold main. cbn [bind call run app].
  fold init. rewrite Hrun. reflexivity.
Qed.

(** The loop never exits, and it keeps the state among the defined values
    when it starts there. *)
Lemma main_loop_defined (bsp : driver) (h : list bsp_call) (n : nat) (g : globals) :
  In (app_audio_state g) app_states ->
  exists (g' : globals) (evs : list event),
    run bsp (main_loop n g) h = (Returned g', evs)
    /\ In (app_audio_state g') app_states.
Proof.
  intros Hg. induction n as [ | n (g1 & evs1 & Hrun1 & Hin1)].
  - exists g, []. split; [ reflexivity | exact Hg ].
  - destruct (iteration_summary bsp (h ++ calls_of evs1) g1)
      as (g2 & evs2 & Hrun2 & _ & Hstep).
    exists g2, (evs1 ++ evs2).
    split; [ eapply main_loop_step; eassumption | ].
    destruct Hstep as [-> | [_ ->]];
      [ exact Hin1 | apply spec_next_defined; exact Hin1 ].
Qed.

(** C6: at the end of the initialisation and after every pass of the loop
    the state variable holds one of the twelve defined values, which are
    pairwise distinct; the pass that follows leaves the state where it is
    or moves it to the next state of its row in the table, and the table
    is a single round through the twelve states, each row leading to the
    row below and the last row back to the first. *)
Theorem state_walks_the_table (bsp : driver) (n : nat) :
  (exists (g : globals) (evs : list event) (g' : globals) (evs' : list event),
      run bsp (main n) [] = (Returned g, evs)
      /\ run bsp (iteration g) (calls_of evs) = (Returned g', evs')
      /\ run bsp (main (S n)) [] = (Returned g', evs ++ evs')
      /\ In (app_audio_state g) app_states
      /\ In (app_audio_state g') app_states
      /\ (app_audio_state g' = app_audio_state g
          \/ app_audio_state g' = spec_next (app_audio_state g)))
  /\ NoDup app_states
  /\ length app_states = 12%nat
  /\ (forall s : Z, In s app_states <-> In s (map row_state spec_table))
  /\ map row_next spec_table
     = tl (map row_state spec_table) ++ [APP_STATE_CAL_PDN]
  /\ hd 0 (map row_state spec_table) = APP_STATE_CAL_PDN.
Proof.
  split.
  - set (init := bsp_initialize fn_app_bsp_callback NULL).
    destruct (main_loop_defined bsp [init; bsp_dut_initialize] n initial_globals)
      as (g & evs & Hrun & Hin); [ cbn; tauto | ].
    destruct (iteration_summary bsp ([init; bsp_dut_initialize] ++ calls_of evs) g)
      as (g' & evs' & Hrun' & _ & Hstep).
    exists g. eexists. exists g', evs'.
    split; [ apply main_run; exact Hrun | ].
    split; [ exact Hrun' | ].
    split; [ apply (main_run bsp (S n)); eapply main_loop_step; eassumption | ].
    split; [ exact Hin | ].
    destruct Hstep as [Hstay | [_ Hnext]].
    + rewrite Hstay. tauto.
    + rewrite Hnext. split; [ apply spec_next_defined; exact Hin | tauto ].
  - split; [ | split; [ reflexivity | split; [ | split; reflexivity ] ] ].
    + unfold app_states.
      repeat (constructor; [ cbn; intros Hin; repeat (destruct Hin as [Hin | Hin]; [ discriminate Hin | ]); exact Hin | ]).
      constructor.
    + intros s. cbn. tauto.
Qed.

Lemma iteration_undefined (bsp : driver) (h : list bsp_call) (g : globals) :
  ~ In (app_audio_state g) app_states ->
  exists evs : list event,
    run bsp (iteration g) h
    = (Returned {| app_audio_state := app_audio_state g;
                   bsp_pb_pressed := false |}, evs)
    /\ calls_of evs = idle_pass.
Proof.
  intros Hs.
  set (pressed := bsp (h ++ [bsp_dut_process]) (bsp_was_pb_pressed BSP_PB_ID_USER)).
  assert (Hl : app_audio_state (latch pressed g) = app_audio_state g)
    by (destruct pressed; reflexivity).
  eexists. split.
  - erewrite iteration_run.
    + unfold set_bsp_pb_pressed. fold pressed. rewrite Hl. reflexivity.
    + fold pressed. rewrite dispatch_undefined by (rewrite Hl; exact Hs).
      reflexivity.
  - reflexivity.
Qed.

(** C9: the dispatch returns for every value of the state variable; for a
    value outside the twelve defined ones it calls nothing and changes
    nothing, so that from such a value the loop keeps the state for ever:
    each pass only services the DUT, polls the button and sleeps. *)
Theorem undefined_state_is_inert
  (bsp : driver) (h : list bsp_call) (g : globals) :
  (exists (g' : globals) (evs : list event),
      run bsp (dispatch g) h = (Returned g', evs))
  /\ (~ In (app_audio_state g) app_states ->
      run bsp (dispatch g) h = (Returned g, [])
      /\ forall n : nat,
         exists (g' : globals) (evs : list event),
           run bsp (main_loop n g) h = (Returned g', evs)
           /\ app_audio_state g' = app_audio_state g
           /\ calls_of evs = concat (repeat idle_pass n)).
Proof.
  split.
  - destruct (dispatch_summary bsp h g) as (g' & evs & Hrun & _).
    exists g', evs. exact Hrun.
  - intros Hs. split.
    + rewrite dispatch_undefined by exact Hs. reflexivity.
    + induction n as [ | n (g1 & evs1 & Hrun1 & Hst1 & Hcalls1)].
      * exists g, []. repeat split; reflexivity.
      * destruct (iteration_undefined bsp (h ++ calls_of evs1) g1)
          as (evs2 & Hrun2 & Hcalls2); [ rewrite Hst1; exact Hs | ].
        do 2 eexists.
        split; [ eapply main_loop_step; eassumption | ].
        split; [ exact Hst1 | ].
        rewrite calls_of_app, Hcalls1, Hcalls2.
        clear. induction n as [ | n IH]; [ reflexivity | ].
        cbn [repeat concat] in *. rewrite <- app_assoc, IH. reflexivity.
Qed.

(** A pass from a defined state with the flag down, when the processing
    query always stores true: the state moves one row down the table if
    the pass saw a press and stays otherwise. *)
Lemma iteration_counts (bsp : driver) (h : list bsp_call) (g : globals) :
  (forall h' : list bsp_call, bsp h' bsp_dut_is_processing = Some true) ->
  In (app_audio_state g) app_states ->
  bsp_pb_pressed g = false ->
  exists (g' : globals) (evs : list event),
    run bsp (iteration g) h = (Returned g', evs)
    /\ bsp_pb_pressed g' = false
    /\ app_audio_state g'
       = Nat.iter (presses evs) spec_next (app_audio_state g).
Proof.
  intros Hq Hs Hp. destruct g as [s p]. cbn in Hs, Hp. subst p.
  set (poll := bsp_was_pb_pressed BSP_PB_ID_USER).
  pose proof (iteration_run bsp h {| app_audio_state := s; bsp_pb_pressed := false |})
    as Hrun.
  cbv zeta in Hrun. fold poll in Hrun.
  destruct (bsp (h ++ [bsp_dut_process]) poll) eqn:Hpoll.
  - destruct (dispatch_advances bsp (h ++ [bsp_dut_process; poll]) s Hs (Hq _))
      as (devs & Hd & Hpr).
    do 2 eexists. split; [ apply Hrun; exact Hd | ].
    split; [ reflexivity | ].
    change (presses (?a :: ?b :: ?l)) with (presses ([a; b] ++ l)).
    rewrite !presses_app, Hpr. reflexivity.
  - do 2 eexists. split; [ apply Hrun; apply dispatch_idle; reflexivity | ].
    split; reflexivity.
Qed.

Lemma main_loop_counts (bsp : driver) (h : list bsp_call) (n : nat) (g : globals) :
  (forall h' : list bsp_call, bsp h' bsp_dut_is_processing = Some true) ->
  In (app_audio_state g) app_states ->
  bsp_pb_pressed g = false ->
  exists (g' : globals) (evs : list event),
    run bsp (main_loop n g) h = (Returned g', evs)
    /\ bsp_pb_pressed g' = false
    /\ app_audio_state g'
       = Nat.iter (presses evs) spec_next (app_audio_state g).
Proof.
  intros Hq Hs Hp.
  induction n as [ | n (g1 & evs1 & Hrun1 & Hp1 & Hst1)].
  - exists g, []. repeat split; [ exact Hp ].
  - assert (Hs1 : In (app_audio_state g1) app_states).
    { destruct (main_loop_defined bsp h n g Hs) as (g1' & evs1' & Hrun1' & Hin).
      rewrite Hrun1 in Hrun1'. injection Hrun1' as <- _. exact Hin. }
    destruct (iteration_counts bsp (h ++ calls_of evs1) g1 Hq Hs1 Hp1)
      as (g2 & evs2 & Hrun2 & Hp2 & Hst2).
    exists g2, (evs1 ++ evs2).
    split; [ eapply main_loop_step; eassumption | ].
    split; [ exact Hp2 | ].
    rewrite Hst2, Hst1, presses_app, Nat.add_comm.
    symmetry. apply Nat.iter_add.
Qed.

(** C2, as the code has it: with the processing query storing true, the
    state is back at CAL_POWER_DOWN when the loop has seen twelve presses,
    and not before: after eleven it is WAKE, and after any number from one
    to eleven it is not CAL_POWER_DOWN. *)
Theorem twelve_presses_close_the_cycle (bsp : driver) (n : nat) :
  (forall h : list bsp_call, bsp h bsp_dut_is_processing = Some true) ->
  exists (g : globals) (evs : list event),
    run bsp (main n) [] = (Returned g, evs)
    /\ (presses evs = 12%nat -> app_audio_state g = APP_STATE_CAL_PDN)
    /\ (presses evs = 11%nat -> app_audio_state g = APP_STATE_WAKE)
    /\ ((0 < presses evs < 12)%nat -> app_audio_state g <> APP_STATE_CAL_PDN).
Proof.
  intros Hq.
  destruct (main_loop_counts bsp
              [bsp_initialize fn_app_bsp_callback NULL; bsp_dut_initialize]
              n initial_globals Hq)
    as (g & evs & Hrun & _ & Hst); [ cbn; tauto | reflexivity | ].
  do 2 eexists. split; [ apply main_run; exact Hrun | ].
  change (presses (?a :: ?b :: evs)) with (presses evs).
  rewrite Hst. cbn [initial_globals app_audio_state].
  split; [ intros -> ; reflexivity | ].
  split; [ intros -> ; reflexivity | ].
  intros [Hlo Hhi].
  generalize dependent (presses evs). intros k _ Hlo Hhi.
  destruct k as [ | k]; [ exfalso; apply (Nat.lt_irrefl _ Hlo) | clear Hlo ].
  do 11 (destruct k as [ | k]; [ vm_compute; discriminate | ]).
  exfalso. clear - Hhi. lia.
Qed.

(** ** Runs of [main] as walks of the table *)

Lemma spec_row_undefined (s : Z) :
  ~ In s app_states -> spec_row s = None.
Proof.
  intros Hs. unfold spec_row. cbn [find spec_table row_state].
  repeat match goal with
         | |- context [if ?v =? s then _ else _] =>
             destruct (Z.eqb_spec v s) as [E | _];
             [ exfalso; apply Hs; rewrite <- E; cbn; tauto | ]
         end.
  reflexivity.
Qed.

(** A dispatch with the edge flag up, in any state: it holds in
    CHECK_PROCESSING, or makes the calls of the row and moves on (outside
    the table there are no calls and nowhere to move). *)
Lemma dispatch_pressed (bsp : driver) (h : list bsp_call) (s : Z) :
  exists (g' : globals) (devs : list event),
    run bsp (dispatch {| app_audio_state := s; bsp_pb_pressed := true |}) h
    = (Returned g', devs)
    /\ presses devs = 0%nat
    /\ (s = APP_STATE_CHECK_PROCESSING
        /\ app_audio_state g' = s
        /\ calls_of devs = [bsp_dut_is_processing]
        \/ exists identity : Z,
            app_audio_state g' = spec_next s
            /\ calls_of devs = spec_actions s identity).
Proof.
  destruct (in_dec Z.eq_dec s app_states) as [Hs | Hs].
  - cbn in Hs.
    repeat (destruct Hs as [<- | Hs]); try contradiction;
      straight;
      try (destruct (uint8 _ =? BSP_DUT_ID_LEFT) eqn:Hid; cbn);
      try (destruct (bsp h bsp_dut_is_processing) as [[ | ] | ]; cbn);
      (do 2 eexists; split; [ reflexivity | split; [ reflexivity | ] ]);
      first [ left; split; [ reflexivity | split; reflexivity ]
            | right; exists 0; split; reflexivity
            | right;
              match goal with
              | Hid : (?x =? _) = _ |- _ =>
                  exists x; split; [ reflexivity | cbn; rewrite Hid; reflexivity ]
              end ].
  - rewrite dispatch_undefined by exact Hs.
    do 2 eexists. split; [ reflexivity | split; [ reflexivity | ] ].
    right. exists 0. unfold spec_next, spec_actions.
    rewrite (spec_row_undefined s Hs). split; reflexivity.
Qed.

(** A pass that starts with the edge flag down is one of the three kinds
    of [pass_from], and ends with the flag down. *)
Lemma iteration_pass (bsp : driver) (h : list bsp_call) (g : globals) :
  bsp_pb_pressed g = false ->
  exists (g' : globals) (evs : list event),
    run bsp (iteration g) h = (Returned g', evs)
    /\ bsp_pb_pressed g' = false
    /\ pass_from (app_audio_state g) (presses evs) (calls_of evs)
                 (app_audio_state g').
Proof.
  intros Hp. destruct g as [s p]. cbn in Hp. subst p.
  set (poll := bsp_was_pb_pressed BSP_PB_ID_USER).
  pose proof (iteration_run bsp h {| app_audio_state := s; bsp_pb_pressed := false |})
    as Hrun.
  cbv zeta in Hrun. fold poll in Hrun.
  destruct (bsp (h ++ [bsp_dut_process]) poll) eqn:Hpoll.
  - destruct (dispatch_pressed bsp (h ++ [bsp_dut_process; poll]) s)
      as (g2 & devs & Hd & Hpr & Hkind).
    do 2 eexists. split; [ apply Hrun; exact Hd | ].
    split; [ reflexivity | ].
    change (presses (?a :: ?b :: ?l)) with (presses ([a; b] ++ l)).
    rewrite !presses_app, Hpr.
    cbn [calls_of map ev_call]. rewrite map_app. fold (calls_of devs).
    cbn [set_bsp_pb_pressed app_audio_state map ev_call].
    change (presses _ + (0 + presses _))%nat with 1%nat.
    fold (pass_of (calls_of devs)).
    destruct Hkind as [(Hs & -> & ->) | (identity & -> & ->)];
      [ apply pass_hold; exact Hs | apply pass_advance ].
  - do 2 eexists. split; [ apply Hrun; apply dispatch_idle; reflexivity | ].
    split; [ reflexivity | ]. apply pass_idle.
Qed.

Lemma main_loop_walk (bsp : driver) (h : list bsp_call) (n : nat) (g : globals) :
  bsp_pb_pressed g = false ->
  exists (g' : globals) (evs : list event),
    run bsp (main_loop n g) h = (Returned g', evs)
    /\ bsp_pb_pressed g' = false
    /\ walk (app_audio_state g) n (presses evs) (calls_of evs)
            (app_audio_state g').
Proof.
  intros Hp. induction n as [ | n (g1 & evs1 & Hrun1 & Hp1 & Hw1)].
  - exists g, []. split; [ reflexivity | split; [ exact Hp | apply walk_start ] ].
  - destruct (iteration_pass bsp (h ++ calls_of evs1) g1 Hp1)
      as (g2 & evs2 & Hrun2 & Hp2 & Hpass).
    exists g2, (evs1 ++ evs2).
    split; [ eapply main_loop_step; eassumption | ].
    split; [ exact Hp2 | ].
    rewrite presses_app, calls_of_app.
    eapply walk_pass; eassumption.
Qed.

(** The calls of [main]: the two initialisation calls, then a walk. *)
Lemma main_run_walk (bsp : driver) (n : nat) :
  exists (g : globals) (evs : list event) (l : list bsp_call),
    run bsp (main n) [] = (Returned g, evs)
    /\ calls_of evs
       = bsp_initialize fn_app_bsp_callback NULL :: bsp_dut_initialize :: l
    /\ bsp_pb_pressed g = false
    /\ walk APP_STATE_CAL_PDN n (presses evs) l (app_audio_state g).
Proof.
  destruct (main_loop_walk bsp
              [bsp_initialize fn_app_bsp_callback NULL; bsp_dut_initialize]
              n initial_globals eq_refl)
    as (g & evs & Hrun & Hp & Hw).
  exists g. eexists. exists (calls_of evs).
  split; [ apply main_run; exact Hrun | ].
  split; [ reflexivity | ]. split; [ exact Hp | exact Hw ].
Qed.


(** ** What every walk keeps *)

Ltac each_pass Hs Hpass :=
  destruct Hpass as [ | -> | dut ];
  [ | | cbn in Hs; repeat (destruct Hs as [<- | Hs]); try contradiction ].

Lemma pass_defined (s : Z) (k : nat) (lp : list bsp_call) (s' : Z) :
  pass_from s k lp s' -> In s app_states -> In s' app_states.
Proof.
  intros [ | _ | identity ] Hs; [ exact Hs | exact Hs | ].
  apply spec_next_defined. exact Hs.
Qed.

Lemma walk_defined (s : Z) (n k : nat) (l : list bsp_call) (s' : Z) :
  walk s n k l s' -> In s app_states -> In s' app_states.
Proof.
  intros Hw Hs. induction Hw as [ | n k l s1 k1 l1 s2 _ IH Hpass ];
    [ exact Hs | eapply pass_defined; eassumption ].
Qed.

Lemma checked_app (ok : list bsp_call -> bsp_call -> bool)
                  (l l' past : list bsp_call) :
  checked ok past (l ++ l')
  = checked ok past l && checked ok (rev l ++ past) l'.
Proof.
  revert past. induction l as [ | c l IH]; intros past; [ reflexivity | ].
  cbn [app checked rev]. rewrite IH, <- app_assoc, andb_assoc. reflexivity.
Qed.

Lemma checked_split (ok : list bsp_call -> bsp_call -> bool)
                    (l1 : list bsp_call) (c : bsp_call) (l2 : list bsp_call) :
  checked ok [] (l1 ++ c :: l2) = true -> ok (rev l1) c = true.
Proof.
  rewrite checked_app, app_nil_r. cbn [checked].
  intros H. apply andb_prop in H as [_ H]. apply andb_prop in H as [H _].
  exact H.
Qed.

Lemma walk_checked (ok : list bsp_call -> bsp_call -> bool) :
  (forall s k lp s' past,
      In s app_states -> pass_from s k lp s' -> checked ok past lp = true) ->
  forall s n k l s',
    walk s n k l s' -> In s app_states ->
    forall past, checked ok past l = true.
Proof.
  intros Hpass s n k l s' Hw Hs.
  induction Hw as [ | n k l s1 k1 l1 s2 Hw IH Hp ]; intros past;
    [ reflexivity | ].
  rewrite checked_app, IH.
  apply (Hpass s1 k1 l1 s2); [ eapply walk_defined; eassumption | exact Hp ].
Qed.

Lemma monitor_app {M : Type} (step : M -> bsp_call -> option M)
                  (l l' : list bsp_call) (m : M) :
  monitor step m (l ++ l')
  = match monitor step m l with
    | Some m' => monitor step m' l'
    | None => None
    end.
Proof.
  revert m. induction l as [ | c l IH]; intros m; [ reflexivity | ].
  cbn [app monitor]. destruct (step m c); [ apply IH | reflexivity ].
Qed.

Lemma walk_monitor {M : Type} (step : M -> bsp_call -> option M)
                   (R : Z -> M -> Prop) :
  (forall s k lp s' m,
      In s app_states -> R s m -> pass_from s k lp s' ->
      exists m', monitor step m lp = Some m' /\ R s' m') ->
  forall s n k l s',
    walk s n k l s' -> In s app_states ->
    forall m, R s m -> exists m', monitor step m l = Some m' /\ R s' m'.
Proof.
  intros Hpass s n k l s' Hw Hs m Hm.
  induction Hw as [ | n k l s1 k1 l1 s2 Hw (m1 & Hrun1 & Hm1) Hp ].
  - exists m. split; [ reflexivity | exact Hm ].
  - destruct (Hpass s1 k1 l1 s2 m1) as (m2 & Hrun2 & Hm2);
      [ eapply walk_defined; eassumption | exact Hm1 | exact Hp | ].
    exists m2. rewrite monitor_app, Hrun1. split; assumption.
Qed.

Lemma start_defined : In APP_STATE_CAL_PDN app_states.
Proof. cbn. tauto. Qed.

(** Counting the calls of one kind in a walk, when every pass makes
    [times] of them. *)
Lemma walk_filter (f : bsp_call -> bool) (c : bsp_call) (times : nat) :
  (forall s k lp s',
      In s app_states -> pass_from s k lp s' -> filter f lp = repeat c times) ->
  forall s n k l s',
    walk s n k l s' -> In s app_states -> filter f l = repeat c (n * times).
Proof.
  intros Hpass s n k l s' Hw Hs.
  induction Hw as [ | n k l s1 k1 l1 s2 Hw IH Hp ]; [ reflexivity | ].
  rewrite filter_app, IH, (Hpass s1 k1 l1 s2);
    [ | eapply walk_defined; eassumption | exact Hp ].
  rewrite <- repeat_app. f_equal. lia.
Qed.

Lemma walk_presses (s : Z) (n k : nat) (l : list bsp_call) (s' : Z) :
  walk s n k l s' ->
  exists j : nat,
    (j <= k <= n)%nat /\ s' = Nat.iter j spec_next s.
Proof.
  intros Hw. induction Hw as [ | n k l s1 k1 l1 s2 Hw (j & Hj & Hs1) Hp ].
  - exists 0%nat. split; [ lia | reflexivity ].
  - destruct Hp as [ | _ | identity ].
    + exists j. split; [ lia | exact Hs1 ].
    + exists j. split; [ lia | exact Hs1 ].
    + exists (S j). split; [ lia | ]. rewrite Hs1. reflexivity.
Qed.

Lemma walk_quiet (s : Z) (n : nat) (l : list bsp_call) (s' : Z) :
  walk s n 0 l s' -> s' = s /\ l = concat (repeat idle_pass n).
Proof.
  remember 0%nat as k eqn:Hk. intros Hw.
  induction Hw as [ | n k l s1 k1 l1 s2 Hw IH Hp ].
  - split; reflexivity.
  - assert (Hk0 : k = 0%nat) by lia. assert (Hk1 : k1 = 0%nat) by lia.
    destruct (IH Hk0) as [-> ->]. subst k1.
    inversion Hp as [ Hz Hl Hs | Hc Hz | identity Hz ]; try discriminate.
    split; [ reflexivity | ].
    change (pass_of []) with idle_pass.
    clear. induction n as [ | n IHn]; [ reflexivity | ].
    cbn [repeat concat] in *. rewrite <- app_assoc, IHn. reflexivity.
Qed.

Lemma pass_housekeeping (s : Z) (k : nat) (lp : list bsp_call) (s' : Z) :
  In s app_states -> pass_from s k lp s' ->
  filter is_init lp = repeat bsp_sleep 0
  /\ filter is_dut_process lp = repeat bsp_dut_process 1
  /\ filter is_poll lp = repeat (bsp_was_pb_pressed BSP_PB_ID_USER) 1
  /\ filter is_sleep lp = repeat bsp_sleep 1.
Proof.
  intros Hs Hp.
  each_pass Hs Hp; cbn; repeat split; reflexivity.
Qed.

(** X2: in the calls of [main] up to its [n]-th pass, the BSP and the DUT
    are initialised exactly once each, and there are exactly [n]
    servicing calls, [n] polls, all of the user button, and [n] sleeps. *)
Theorem housekeeping_once_per_pass (bsp : driver) (n : nat) :
  exists (g : globals) (evs : list event),
    run bsp (main n) [] = (Returned g, evs)
    /\ filter is_init (calls_of evs)
       = [ bsp_initialize fn_app_bsp_callback NULL; bsp_dut_initialize ]
    /\ filter is_dut_process (calls_of evs) = repeat bsp_dut_process n
    /\ filter is_poll (calls_of evs)
       = repeat (bsp_was_pb_pressed BSP_PB_ID_USER) n
    /\ filter is_sleep (calls_of evs) = repeat bsp_sleep n.
Proof.
  destruct (main_run_walk bsp n) as (g & evs & l & Hrun & Hcalls & _ & Hw).
  exists g, evs. split; [ exact Hrun | ].
  rewrite Hcalls. cbn [filter is_init is_dut_process is_poll is_sleep].
  rewrite (walk_filter is_init bsp_sleep 0
             (fun s k lp s' Hs Hp => proj1 (pass_housekeeping s k lp s' Hs Hp))
             _ _ _ _ _ Hw start_defined).
  rewrite (walk_filter is_dut_process bsp_dut_process 1
             (fun s k lp s' Hs Hp =>
                proj1 (proj2 (pass_housekeeping s k lp s' Hs Hp)))
             _ _ _ _ _ Hw start_defined).
  rewrite (walk_filter is_poll (bsp_was_pb_pressed BSP_PB_ID_USER) 1
             (fun s k lp s' Hs Hp =>
                proj1 (proj2 (proj2 (pass_housekeeping s k lp s' Hs Hp))))
             _ _ _ _ _ Hw start_defined).
  rewrite (walk_filter is_sleep bsp_sleep 1
             (fun s k lp s' Hs Hp =>
                proj2 (proj2 (proj2 (pass_housekeeping s k lp s' Hs Hp))))
             _ _ _ _ _ Hw start_defined).
  rewrite Nat.mul_0_r, Nat.mul_1_r.
  split; [ reflexivity | ]. split; [ reflexivity | ].
  split; reflexivity.
Qed.

(** X3: as long as the BSP reports no press, [main] only initialises
    and idles: the globals are the initial ones and every pass is the
    servicing call, the poll and the sleep. *)
Theorem no_press_no_action (bsp : driver) (n : nat) :
  exists (g : globals) (evs : list event),
    run bsp (main n) [] = (Returned g, evs)
    /\ (presses evs = 0%nat ->
        g = initial_globals
        /\ calls_of evs
           = bsp_initialize fn_app_bsp_callback NULL
             :: bsp_dut_initialize
             :: concat (repeat idle_pass n)).
Proof.
  destruct (main_run_walk bsp n) as (g & evs & l & Hrun & Hcalls & Hp & Hw).
  exists g, evs. split; [ exact Hrun | ].
  intros Hquiet. rewrite Hquiet in Hw.
  destruct (walk_quiet _ _ _ _ Hw) as [Hs ->].
  split; [ | exact Hcalls ].
  destruct g as [s p]. cbn in Hs, Hp. subst s p. reflexivity.
Qed.

(** X4: the state never runs ahead of the button: after [n] passes the
    state is [j] rows down the table from CAL_POWER_DOWN, for some [j] no
    larger than the number of presses seen, which is no larger than
    [n]. *)
Theorem state_never_ahead_of_presses (bsp : driver) (n : nat) :
  exists (g : globals) (evs : list event) (j : nat),
    run bsp (main n) [] = (Returned g, evs)
    /\ (j <= presses evs <= n)%nat
    /\ app_audio_state g = Nat.iter j spec_next APP_STATE_CAL_PDN.
Proof.
  destruct (main_run_walk bsp n) as (g & evs & l & Hrun & _ & _ & Hw).
  destruct (walk_presses _ _ _ _ _ Hw) as (j & Hj & Hs).
  exists g, evs, j. split; [ exact Hrun | split; [ exact Hj | exact Hs ] ].
Qed.

(** ** Order of the calls *)

Lemma pass_boot_rule (s : Z) (k : nat) (lp : list bsp_call) (s' : Z)
                     (past : list bsp_call) :
  In s app_states -> pass_from s k lp s' -> checked boot_rule past lp = true.
Proof.
  intros Hs Hp. each_pass Hs Hp; cbn; rewrite ?Z.eqb_refl; reflexivity.
Qed.

Lemma pass_gain_rule (s : Z) (k : nat) (lp : list bsp_call) (s' : Z)
                     (past : list bsp_call) :
  In s app_states -> pass_from s k lp s' -> checked gain_rule past lp = true.
Proof.
  intros Hs Hp.
  each_pass Hs Hp; cbn; try destruct (dut =? BSP_DUT_ID_LEFT); reflexivity.
Qed.

(** The calls of [main] pass any check that every pass passes and that
    does not mind the initialisation. *)
Lemma main_checked (ok : list bsp_call -> bsp_call -> bool)
                   (bsp : driver) (n : nat) (g : globals) (evs : list event) :
  (forall s k lp s' past,
      In s app_states -> pass_from s k lp s' -> checked ok past lp = true) ->
  (forall past c, is_init c = true -> ok past c = true) ->
  run bsp (main n) [] = (Returned g, evs) ->
  checked ok [] (calls_of evs) = true.
Proof.
  intros Hpass Hinit Hrun.
  destruct (main_run_walk bsp n) as (g' & evs' & l & Hrun' & Hcalls & _ & Hw).
  rewrite Hrun in Hrun'. injection Hrun' as _ <-.
  rewrite Hcalls. cbn [checked].
  rewrite !Hinit by reflexivity.
  apply (walk_checked ok Hpass _ _ _ _ _ Hw start_defined).
Qed.

(** X5: wherever a DUT boot occurs in the calls of [main], the three
    calls just before it are the audio stop, the start of the reference
    that goes with the boot mode (silence for a calibration boot, the
    stereo 1 kHz tone for a normal boot) and the DUT reset. *)
Theorem boot_follows_stop_play_reset
  (bsp : driver) (n : nat) (g : globals) (evs : list event)
  (l1 : list bsp_call) (cal_boot : bool) (l2 : list bsp_call) :
  run bsp (main n) [] = (Returned g, evs) ->
  calls_of evs = l1 ++ bsp_dut_boot cal_boot :: l2 ->
  exists l0 : list bsp_call,
    l1 = l0 ++ [ bsp_audio_stop;
                 bsp_audio_play_record
                   (if cal_boot then BSP_PLAY_SILENCE
                    else BSP_PLAY_STEREO_1KHZ_20DBFS);
                 bsp_dut_reset ].
Proof.
  intros Hrun Hsplit.
  assert (Hok : checked boot_rule [] (calls_of evs) = true).
  { apply (main_checked boot_rule bsp n g evs); [ | | exact Hrun ].
    - intros s k lp s' past. apply pass_boot_rule.
    - intros past c Hc. destruct c; try discriminate Hc; reflexivity. }
  rewrite Hsplit in Hok. apply checked_split in Hok.
  unfold boot_rule in Hok.
  destruct (rev l1) as [ | [] [ | [] [ | [] t ] ] ] eqn:Hrev;
    try discriminate Hok.
  apply Z.eqb_eq in Hok. subst content.
  exists (rev t).
  rewrite <- (rev_involutive l1), Hrev. cbn [rev].
  rewrite <- !app_assoc. reflexivity.
Qed.

(** X6: wherever the digital gain is set in the calls of [main], the
    value is -6 or -10 and the two calls just before it are a normal
    (non-calibration) boot and the identity query. *)
Theorem gain_follows_boot_and_identity
  (bsp : driver) (n : nat) (g : globals) (evs : list event)
  (l1 : list bsp_call) (gain_db : Z) (l2 : list bsp_call) :
  run bsp (main n) [] = (Returned g, evs) ->
  calls_of evs = l1 ++ bsp_dut_set_dig_gain gain_db :: l2 ->
  (gain_db = -6 \/ gain_db = -10)
  /\ exists l0 : list bsp_call,
       l1 = l0 ++ [ bsp_dut_boot false; bsp_dut_get_id ].
Proof.
  intros Hrun Hsplit.
  assert (Hok : checked gain_rule [] (calls_of evs) = true).
  { apply (main_checked gain_rule bsp n g evs); [ | | exact Hrun ].
    - intros s k lp s' past. apply pass_gain_rule.
    - intros past c Hc. destruct c; try discriminate Hc; reflexivity. }
  rewrite Hsplit in Hok. apply checked_split in Hok.
  unfold gain_rule in Hok.
  destruct (rev l1) as [ | [] [ | [ | | | | | | | [ | ] | | | | | | | | | | ] t ] ]
    eqn:Hrev; try discriminate Hok.
  apply orb_prop in Hok. split.
  - destruct Hok as [H | H]; apply Z.eqb_eq in H; tauto.
  - exists (rev t).
    rewrite <- (rev_involutive l1), Hrev. cbn [rev].
    rewrite <- !app_assoc. reflexivity.
Qed.

(** The calls of [main] are accepted by any monitor that accepts every
    pass and the initialisation. *)
Lemma main_monitor {M : Type} (step : M -> bsp_call -> option M)
                   (R : Z -> M -> Prop) (m0 m1 : M) (bsp : driver) (n : nat) :
  (forall s k lp s' m,
      In s app_states -> R s m -> pass_from s k lp s' ->
      exists m', monitor step m lp = Some m' /\ R s' m') ->
  monitor step m0
    [ bsp_initialize fn_app_bsp_callback NULL; bsp_dut_initialize ] = Some m1 ->
  R APP_STATE_CAL_PDN m1 ->
  exists (g : globals) (evs : list event) (m : M),
    run bsp (main n) [] = (Returned g, evs)
    /\ monitor step m0 (calls_of evs) = Some m
    /\ R (app_audio_state g) m.
Proof.
  intros Hpass Hinit Hstart.
  destruct (main_run_walk bsp n) as (g & evs & l & Hrun & Hcalls & _ & Hw).
  destruct (walk_monitor step R Hpass _ _ _ _ _ Hw start_defined m1 Hstart)
    as (m & Hm & HR).
  exists g, evs, m. split; [ exact Hrun | ]. split; [ | exact HR ].
  rewrite Hcalls.
  change (?a :: ?b :: l) with ([a; b] ++ l).
  rewrite monitor_app, Hinit. exact Hm.
Qed.

(** X7: the calls of [main] keep the power discipline of [power_rule]:
    power up and power down take turns, beginning with a power up; the
    DUT is reset, booted, sent to hibernation and woken only while
    powered down, and calibrated, muted, unmuted and asked whether it is
    processing only while powered up.  At the end of a pass the DUT is
    powered up exactly in the states CAL_POWERED_UP, CALIBRATED,
    CHECK_PROCESSING, POWERED_UP, MUTE and UNMUTE. *)
Theorem power_discipline (bsp : driver) (n : nat) :
  exists (g : globals) (evs : list event),
    run bsp (main n) [] = (Returned g, evs)
    /\ monitor power_rule false (calls_of evs)
       = Some (powered (app_audio_state g)).
Proof.
  destruct (main_monitor power_rule (fun s up => up = powered s)
              false false bsp n) as (g & evs & m & Hrun & Hm & ->).
  - intros s k lp s' m Hs -> Hp.
    each_pass Hs Hp; eexists; (split; [ | reflexivity ]); reflexivity.
  - reflexivity.
  - reflexivity.
  - exists g, evs. split; assumption.
Qed.

(** X8: the calls of [main] keep the boot discipline of [mode_rule]: the
    DUT is booted only when freshly reset; it is calibrated only after a
    calibration boot; its identity is read, its gain set, its processing
    queried and its mute switched only after a normal boot. *)
Theorem boot_mode_discipline (bsp : driver) (n : nat) :
  exists (g : globals) (evs : list event) (mode : option bool),
    run bsp (main n) [] = (Returned g, evs)
    /\ monitor mode_rule None (calls_of evs) = Some mode
    /\ (mode = booted_as (app_audio_state g)
        \/ app_audio_state g = APP_STATE_CAL_PDN /\ mode = Some false).
Proof.
  apply (main_monitor mode_rule
           (fun s mode => mode = booted_as s
                          \/ s = APP_STATE_CAL_PDN /\ mode = Some false)
           None None bsp n).
  - intros s k lp s' m Hs HR Hp.
    each_pass Hs Hp;
      [ exists m; split; [ reflexivity | exact HR ]
      | destruct HR as [-> | [Hs' _]]; [ | discriminate Hs' ];
        eexists; split; [ reflexivity | left; reflexivity ]
      | .. ];
      (destruct HR as [-> | [Hs' ->]]; [ | try discriminate Hs' ]);
      eexists; (split; [ reflexivity | ]);
      first [ left; reflexivity | right; split; reflexivity ].
  - reflexivity.
  - left. reflexivity.
Qed.

(** X9: the calls of [main] keep the discipline of [rest_rule]:
    hibernate and wake take turns, beginning with hibernate, and so do
    mute and unmute, beginning with mute; between a hibernate and the
    wake that follows there are only the servicing call, the poll and
    the sleep of each pass; between a mute and the unmute that follows
    the DUT is neither powered down nor sent to hibernation.  At the end
    of a pass the DUT hibernates exactly in state WAKE and is muted
    exactly in state MUTE. *)
Theorem hibernate_and_mute_discipline (bsp : driver) (n : nat) :
  exists (g : globals) (evs : list event),
    run bsp (main n) [] = (Returned g, evs)
    /\ monitor rest_rule (false, false) (calls_of evs)
       = Some (resting (app_audio_state g)).
Proof.
  destruct (main_monitor rest_rule (fun s m => m = resting s)
              (false, false) (false, false) bsp n)
    as (g & evs & m & Hrun & Hm & ->).
  - intros s k lp s' m Hs -> Hp.
    each_pass Hs Hp; eexists; (split; [ | reflexivity ]); reflexivity.
  - reflexivity.
  - reflexivity.
  - exists g, evs. split; assumption.
Qed.

(** ** A DUT that never processes *)

Lemma iteration_early (bsp : driver) (h : list bsp_call) (g : globals) :
  (forall h' : list bsp_call, bsp h' bsp_dut_is_processing <> Some true) ->
  bsp_pb_pressed g = false ->
  In (app_audio_state g) early_states ->
  exists (g' : globals) (evs : list event),
    run bsp (iteration g) h = (Returned g', evs)
    /\ bsp_pb_pressed g' = false
    /\ In (app_audio_state g') early_states
    /\ filter is_late (calls_of evs) = [].
Proof.
  intros Hq Hp Hs. destruct g as [s p]. cbn in Hp, Hs. subst p.
  set (poll := bsp_was_pb_pressed BSP_PB_ID_USER).
  pose proof (iteration_run bsp h {| app_audio_state := s; bsp_pb_pressed := false |})
    as Hrun.
  cbv zeta in Hrun. fold poll in Hrun.
  destruct (bsp (h ++ [bsp_dut_process]) poll) eqn:Hpoll.
  - assert (Hd : exists (g2 : globals) (devs : list event),
               run bsp (dispatch {| app_audio_state := s; bsp_pb_pressed := true |})
                   (h ++ [bsp_dut_process; poll]) = (Returned g2, devs)
               /\ In (app_audio_state g2) early_states
               /\ filter is_late (calls_of devs) = []).
    { repeat (destruct Hs as [<- | Hs]); try contradiction;
        straight;
        try (destruct (uint8 _ =? BSP_DUT_ID_LEFT); cbn);
        try (destruct (bsp (h ++ [bsp_dut_process; poll]) bsp_dut_is_processing)
               as [[ | ] | ] eqn:Hstored;
             [ exfalso; exact (Hq _ Hstored) | | ]; cbn);
        (do 2 eexists; split; [ reflexivity | ]; split; [ cbn; tauto | reflexivity ]). }
    destruct Hd as (g2 & devs & Hd & Hin & Hlate).
    do 2 eexists. split; [ apply Hrun; exact Hd | ].
    split; [ reflexivity | ]. split; [ exact Hin | ].
    cbn [calls_of map ev_call]. rewrite map_app. fold (calls_of devs).
    cbn [filter is_late]. rewrite filter_app, Hlate. reflexivity.
  - do 2 eexists. split; [ apply Hrun; apply dispatch_idle; reflexivity | ].
    split; [ reflexivity | ]. split; [ exact Hs | reflexivity ].
Qed.

(** X10: as long as the processing query never stores true, [main] does
    not get past CHECK_PROCESSING, however often the button is pressed:
    the state is one of the seven states up to CHECK_PROCESSING, and the
    DUT is never muted, unmuted, sent to hibernation or woken. *)
Theorem no_processing_no_playback (bsp : driver) (n : nat) :
  (forall h : list bsp_call, bsp h bsp_dut_is_processing <> Some true) ->
  exists (g : globals) (evs : list event),
    run bsp (main n) [] = (Returned g, evs)
    /\ In (app_audio_state g) early_states
    /\ filter is_late (calls_of evs) = [].
Proof.
  intros Hq.
  set (h0 := [bsp_initialize fn_app_bsp_callback NULL; bsp_dut_initialize]).
  assert (Hloop : exists (g : globals) (evs : list event),
             run bsp (main_loop n initial_globals) h0 = (Returned g, evs)
             /\ bsp_pb_pressed g = false
             /\ In (app_audio_state g) early_states
             /\ filter is_late (calls_of evs) = []).
  { induction n as [ | n (g1 & evs1 & Hrun1 & Hp1 & Hs1 & Hl1)].
    - exists initial_globals, [].
      split; [ reflexivity | ]. split; [ reflexivity | ].
      split; [ cbn; tauto | reflexivity ].
    - destruct (iteration_early bsp (h0 ++ calls_of evs1) g1 Hq Hp1 Hs1)
        as (g2 & evs2 & Hrun2 & Hp2 & Hs2 & Hl2).
      exists g2, (evs1 ++ evs2).
      split; [ eapply main_loop_step; eassumption | ].
      split; [ exact Hp2 | ]. split; [ exact Hs2 | ].
      rewrite calls_of_app, filter_app, Hl1, Hl2. reflexivity. }
  destruct Hloop as (g & evs & Hrun & _ & Hs & Hl).
  do 2 eexists. split; [ apply main_run; exact Hrun | ].
  split; [ exact Hs | ].
  cbn [calls_of map ev_call filter is_late]. exact Hl.
Qed.

End Properties.

(** * The model on the bench

    The statements above at concrete inputs: the header [bench_header] and
    boards that give the same answers throughout. *)

#[local] Existing Instance bench_header.

Lemma dispatch_follows_table_witness :
  In APP_STATE_PDN one_press_states
  /\ fst (run (bench_driver true 1 None)
              (dispatch {| app_audio_state := APP_STATE_PDN;
                           bsp_pb_pressed := true |}) [])
     = Returned {| app_audio_state := APP_STATE_BOOTED; bsp_pb_pressed := true |}
  /\ run (bench_driver true 1 None)
         (dispatch {| app_audio_state := APP_STATE_PDN;
                      bsp_pb_pressed := false |}) []
     = (Returned {| app_audio_state := APP_STATE_PDN; bsp_pb_pressed := false |},
        []).
Proof.
  assert (Hs : In APP_STATE_PDN one_press_states) by (cbn; tauto).
  split; [ exact Hs | ].
  destruct (dispatch_follows_table (bench_driver true 1 None) [] _ Hs)
    as [(evs & Hrun & _) Hidle].
  split; [ rewrite Hrun; reflexivity | exact Hidle ].
Defined.

Lemma twelve_presses_close_the_cycle_witness :
  (forall h : list bsp_call,
      bench_driver true 0 (Some true) h bsp_dut_is_processing = Some true)
  /\ exists (g : globals) (evs : list event),
       run (bench_driver true 0 (Some true)) (main 12) [] = (Returned g, evs)
       /\ presses evs = 12%nat
       /\ app_audio_state g = APP_STATE_CAL_PDN.
Proof.
  assert (Hq : forall h : list bsp_call,
             bench_driver true 0 (Some true) h bsp_dut_is_processing = Some true)
    by (intros h; reflexivity).
  split; [ exact Hq | ].
  destruct (twelve_presses_close_the_cycle (bench_driver true 0 (Some true)) 12 Hq)
    as (g & evs & Hrun & H12 & _).
  assert (Hp : presses (snd (run (bench_driver true 0 (Some true)) (main 12) []))
               = 12%nat) by (vm_compute; reflexivity).
  rewrite Hrun in Hp.
  exists g, evs. split; [ exact Hrun | split; [ exact Hp | exact (H12 Hp) ] ].
Defined.

(** C2 as the specification words it fails: on a board that reports a
    press in every pass and always stores true for the processing query,
    eleven passes see eleven presses and leave the state at WAKE. *)
Lemma eleven_presses_end_in_wake :
  ~ (forall (bsp : driver) (n : nat) (g : globals) (evs : list event),
        (forall h : list bsp_call, bsp h bsp_dut_is_processing = Some true) ->
        run bsp (main n) [] = (Returned g, evs) ->
        presses evs = 11%nat ->
        app_audio_state g = APP_STATE_CAL_PDN).
Proof.
  intros Hclaim.
  pose (bsp := bench_driver true 0 (Some true)).
  assert (Hrun : run bsp (main 11) []
                 = (Returned {| app_audio_state := APP_STATE_WAKE;
                                bsp_pb_pressed := false |},
                    snd (run bsp (main 11) [])))
    by (vm_compute; reflexivity).
  assert (Hp : presses (snd (run bsp (main 11) [])) = 11%nat)
    by (vm_compute; reflexivity).
  specialize (Hclaim bsp 11%nat _ _ (fun _ => eq_refl) Hrun Hp).
  discriminate Hclaim.
Qed.

Lemma check_processing_gate_witness :
  let check (flag : bool) :=
    {| app_audio_state := APP_STATE_CHECK_PROCESSING; bsp_pb_pressed := flag |} in
  fst (run (bench_driver true 0 (Some false)) (dispatch (check true)) [])
  = Returned (check true)
  /\ fst (run (bench_driver true 0 (Some true)) (dispatch (check true)) [])
     = Returned {| app_audio_state := APP_STATE_PUP; bsp_pb_pressed := true |}
  /\ fst (run (bench_driver true 0 (Some false)) (iteration (check false)) [])
     = Returned (check false)
  /\ fst (run (bench_driver true 0 (Some true)) (iteration (check false)) [])
     = Returned {| app_audio_state := APP_STATE_PUP; bsp_pb_pressed := false |}.
Proof.
  destruct (check_processing_gate (bench_driver true 0 (Some false)) [] false)
    as (Hd0 & _ & Hi0 & _).
  destruct (check_processing_gate (bench_driver true 0 (Some true)) [] false)
    as (_ & Hd1 & _ & Hi1).
  split; [ apply Hd0; reflexivity | ].
  split; [ apply Hd1; reflexivity | ].
  split; [ apply Hi0; reflexivity | apply Hi1; reflexivity ].
Defined.

Lemma app_bsp_callback_fatal_witness :
  7 <> BSP_STATUS_OK
  /\ run (bench_driver false 0 None)
         (g <- app_bsp_callback 7 NULL initial_globals ;; iteration g) []
     = (Exited 1, [])
  /\ run (bench_driver false 0 None)
         (app_bsp_callback BSP_STATUS_OK NULL initial_globals) []
     = (Returned initial_globals, []).
Proof.
  assert (Hst : 7 <> BSP_STATUS_OK) by discriminate.
  split; [ exact Hst | ].
  split.
  - apply (app_bsp_callback_fatal (bench_driver false 0 None) [] 7 NULL
             initial_globals).
    exact Hst.
  - apply (app_bsp_callback_fatal (bench_driver false 0 None) []
             BSP_STATUS_OK NULL initial_globals).
    reflexivity.
Defined.

Lemma undefined_state_is_inert_witness :
  let stray := {| app_audio_state := 12; bsp_pb_pressed := true |} in
  ~ In (app_audio_state stray) app_states
  /\ run (bench_driver true 0 (Some true)) (dispatch stray) []
     = (Returned stray, [])
  /\ exists (g' : globals) (evs : list event),
       run (bench_driver true 0 (Some true)) (main_loop 3 stray) []
       = (Returned g', evs)
       /\ app_audio_state g' = 12
       /\ calls_of evs = idle_pass ++ idle_pass ++ idle_pass.
Proof.
  intros stray.
  assert (Hs : ~ In (app_audio_state stray) app_states).
  { cbn. intros H.
    repeat (destruct H as [H | H]; [ discriminate H | ]). exact H. }
  split; [ exact Hs | ].
  destruct (undefined_state_is_inert (bench_driver true 0 (Some true)) [] stray)
    as [_ Hinert].
  destruct (Hinert Hs) as [Hd Hloop].
  split; [ exact Hd | ].
  destruct (Hloop 3%nat) as (g' & evs & Hrun & Hst & Hcalls).
  exists g', evs.
  split; [ exact Hrun | split; [ exact Hst | exact Hcalls ] ].
Defined.

(** The second scenario of the specification: POWERED_DOWN, a press, the
    left device. *)
Example powered_down_left_device :
  run (bench_driver true BSP_DUT_ID_LEFT None)
      (dispatch {| app_audio_state := APP_STATE_PDN; bsp_pb_pressed := true |}) []
  = (Returned {| app_audio_state := APP_STATE_BOOTED; bsp_pb_pressed := true |},
     [ Ev bsp_audio_stop tt;
       Ev (bsp_audio_play_record BSP_PLAY_STEREO_1KHZ_20DBFS) tt;
       Ev bsp_dut_reset tt;
       Ev (bsp_dut_boot false) tt;
       Ev bsp_dut_get_id BSP_DUT_ID_LEFT;
       Ev (bsp_dut_set_dig_gain (-6)) tt ]).
Proof. reflexivity. Qed.

(** A device that answers 256 more than the left identity is the left
    device all the same: [dut_id] is eight bits wide. *)
Example powered_down_identity_wraps :
  calls_of (snd (run (bench_driver true (BSP_DUT_ID_LEFT + 256) None)
                     (dispatch {| app_audio_state := APP_STATE_PDN;
                                  bsp_pb_pressed := true |}) []))
  = spec_actions APP_STATE_PDN BSP_DUT_ID_LEFT.
Proof. reflexivity. Qed.

Lemma no_press_no_action_witness :
  exists (g : globals) (evs : list event),
    run (bench_driver false 0 None) (main 3) [] = (Returned g, evs)
    /\ presses evs = 0%nat
    /\ g = initial_globals
    /\ calls_of evs
       = bsp_initialize fn_app_bsp_callback NULL
         :: bsp_dut_initialize
         :: idle_pass ++ idle_pass ++ idle_pass.
Proof.
  destruct (no_press_no_action (bench_driver false 0 None) 3)
    as (g & evs & Hrun & Hquiet).
  assert (Hp : presses (snd (run (bench_driver false 0 None) (main 3) []))
               = 0%nat) by reflexivity.
  rewrite Hrun in Hp. destruct (Hquiet Hp) as [Hg Hcalls].
  exists g, evs.
  split; [ exact Hrun | split; [ exact Hp | split; [ exact Hg | exact Hcalls ] ] ].
Defined.

Lemma boot_follows_stop_play_reset_witness :
  let bsp := bench_driver true 0 (Some true) in
  let before :=
    [ bsp_initialize fn_app_bsp_callback NULL; bsp_dut_initialize;
      bsp_dut_process; bsp_was_pb_pressed BSP_PB_ID_USER;
      bsp_audio_stop; bsp_audio_play_record BSP_PLAY_SILENCE; bsp_dut_reset ] in
  calls_of (snd (run bsp (main 1) [])) = before ++ bsp_dut_boot true :: [bsp_sleep]
  /\ exists l0 : list bsp_call,
       before = l0 ++ [ bsp_audio_stop;
                        bsp_audio_play_record BSP_PLAY_SILENCE;
                        bsp_dut_reset ].
Proof.
  intros bsp before.
  assert (Hcalls : calls_of (snd (run bsp (main 1) []))
                   = before ++ bsp_dut_boot true :: [bsp_sleep]) by reflexivity.
  split; [ exact Hcalls | ].
  exact (boot_follows_stop_play_reset bsp 1
           {| app_audio_state := APP_STATE_CAL_BOOTED; bsp_pb_pressed := false |}
           (snd (run bsp (main 1) [])) before true [bsp_sleep]
           eq_refl Hcalls).
Defined.

Lemma gain_follows_boot_and_identity_witness :
  let bsp := bench_driver true BSP_DUT_ID_LEFT (Some true) in
  let calls := calls_of (snd (run bsp (main 5) [])) in
  let before := removelast (removelast calls) in
  calls = before ++ bsp_dut_set_dig_gain (-6) :: [bsp_sleep]
  /\ (-6 = -6 \/ -6 = -10)
  /\ exists l0 : list bsp_call,
       before = l0 ++ [ bsp_dut_boot false; bsp_dut_get_id ].
Proof.
  intros bsp calls before.
  assert (Hcalls : calls = before ++ bsp_dut_set_dig_gain (-6) :: [bsp_sleep])
    by reflexivity.
  split; [ exact Hcalls | ].
  exact (gain_follows_boot_and_identity bsp 5
           {| app_audio_state := APP_STATE_BOOTED; bsp_pb_pressed := false |}
           (snd (run bsp (main 5) [])) before (-6) [bsp_sleep]
           eq_refl Hcalls).
Defined.

Lemma no_processing_no_playback_witness :
  (forall h : list bsp_call,
      bench_driver true 0 (Some false) h bsp_dut_is_processing <> Some true)
  /\ exists (g : globals) (evs : list event),
       run (bench_driver true 0 (Some false)) (main 20) [] = (Returned g, evs)
       /\ app_audio_state g = APP_STATE_CHECK_PROCESSING
       /\ filter is_late (calls_of evs) = [].
Proof.
  assert (Hq : forall h : list bsp_call,
             bench_driver true 0 (Some false) h bsp_dut_is_processing
             <> Some true) by (intros h; discriminate).
  split; [ exact Hq | ].
  destruct (no_processing_no_playback (bench_driver true 0 (Some false)) 20 Hq)
    as (g & evs & Hrun & _ & Hlate).
  assert (Hs : fst (run (bench_driver true 0 (Some false)) (main 20) [])
               = Returned {| app_audio_state := APP_STATE_CHECK_PROCESSING;
                             bsp_pb_pressed := false |})
    by (vm_compute; reflexivity).
  rewrite Hrun in Hs. injection Hs as ->.
  do 2 eexists. split; [ exact Hrun | split; [ reflexivity | exact Hlate ] ].
Defined.
